(** * The Material 3 colour-scheme type layer

    The repository declares TypeScript types only (types/color-scheme.ts
    and types/theme.ts).  A TypeScript type is a set of run-time values, so
    the embedding has three parts:

    - [value]: the JavaScript values the declared types range over;
    - [ty]: the type expressions the declarations are written with, and
      [has_type], which says when a value belongs to a type;
    - the type-level operators the declarations call ([Record_], mapped
      types, indexed access, conditional types, [Omit]) as functions
      producing [ty], and the declarations themselves, under their source
      names. *)

From stdpp Require Import gmap strings list fin_maps.

Local Open Scope string_scope.

(** ** Run-time values *)

(** [number] is an IEEE double in JavaScript.  No declaration of the
    repository computes with numbers: the types only test the tag, and the
    scheme entries are packed ARGB integers, so the payload is kept as an
    integer.  A function value is a reference: the types of this layer only
    test that a value is a function. *)
#[local] Unset Elimination Schemes.

Inductive value : Type :=
| VUndefined
| VNull
| VBool (b : bool)
| VNumber (n : Z)
| VString (s : string)
| VArray (xs : list value)
| VObject (fields : gmap string value)
| VFunction (ref : nat).

(** ** Type expressions *)

#[local] Set Elimination Schemes.
#[local] Set Warnings "-register-all".

(** The type expressions of the declarations.  A member of an object type
    is [(name, (optional, type))]; [index] is its string index signature.
    [TExternal] names a type declared outside this layer; [TEndo bound] is
    the generic function type [<T extends bound>(x: T) => T]. *)
Inductive ty : Type :=
| TNever
| TUndefined
| TBoolean
| TNumber
| TString
| TLitBool (b : bool)
| TLitString (s : string)
| TUnion (a b : ty)
| TInter (a b : ty)
| TArray (elt : ty)
| TTuple (elts : list ty)
| TObject (members : list (string * (bool * ty))) (index : option ty)
| TExternal (name : string)
| TEndo (bound : ty).

Definition member : Type := string * (bool * ty).
Definition required : bool := false.
Definition optional : bool := true.

(** ** Membership of a value in a type *)

Definition is_undefined (v : value) : bool :=
  match v with VUndefined => true | _ => false end.

(** A member [k?: t] (or [k: t]) against the entry the object has at [k].
    Without [exactOptionalPropertyTypes] (the compiler's default) an
    optional member also admits [undefined]. *)
Definition member_ok (opt : bool) (check : value -> bool) (entry : option value) : bool :=
  match entry with
  | None => opt
  | Some x => check x || (opt && is_undefined x)
  end.

(** A string index signature [[key: string]: t]: every entry is a [t]. *)
Definition entries_ok (check : value -> bool) (fields : gmap string value) : bool :=
  forallb (fun kx => check kx.2) (map_to_list fields).

(** Types declared outside the repository's type layer (the classes of the
    colour library, the [Variant] enumeration): membership is given by the
    environment. *)
Class Externals := external : string -> value -> bool.

Section Typing.

Context {E : Externals}.

(** [has_type t v]: the value [v] belongs to the type [t].  Object types
    are open, a conforming object may have further entries.  A function
    type accepts every function reference: what a function returns is
    checked on its source by the compiler and is no part of membership.
    Neither is the compiler's refusal of an object that has entries but
    none of the members of an all-optional type. *)
Fixpoint has_type (t : ty) (v : value) {struct t} : bool :=
  match t with
  | TNever => false
  | TUndefined => is_undefined v
  | TBoolean => match v with VBool _ => true | _ => false end
  | TNumber => match v with VNumber _ => true | _ => false end
  | TString => match v with VString _ => true | _ => false end
  | TLitBool b => match v with VBool b' => bool_decide (b' = b) | _ => false end
  | TLitString s => match v with VString s' => bool_decide (s' = s) | _ => false end
  | TUnion a b => has_type a v || has_type b v
  | TInter a b => has_type a v && has_type b v
  | TArray elt => match v with VArray xs => forallb (has_type elt) xs | _ => false end
  | TTuple elts =>
      match v with
      | VArray xs =>
          (fix go (ts : list ty) (xs : list value) {struct ts} : bool :=
             match ts, xs with
             | [], [] => true
             | t' :: ts', x :: xs' => has_type t' x && go ts' xs'
             | _, _ => false
             end) elts xs
      | _ => false
      end
  | TObject members index =>
      match v with
      | VObject fields =>
          forallb (fun p : member =>
                     let '(k, (opt, t')) := p in
                     member_ok opt (has_type t') (fields !! k)) members
          && match index with
             | None => true
             | Some t' => entries_ok (has_type t') fields
             end
      | _ => false
      end
  | TExternal name => external name v
  | TEndo _ => match v with VFunction _ => true | _ => false end
  end.

End Typing.

(** ** Type-level operators *)

(** [t1 | ... | tn]; the empty union is [never]. *)
Fixpoint union_of (ts : list ty) : ty :=
  match ts with
  | [] => TNever
  | [t] => t
  | t :: ts' => TUnion t (union_of ts')
  end.

(** The constituents of a union; [boolean] is [true | false]. *)
Fixpoint union_members (t : ty) : list ty :=
  match t with
  | TNever => []
  | TBoolean => [TLitBool true; TLitBool false]
  | TUnion a b => union_members a ++ union_members b
  | _ => [t]
  end.

Definition lit_string (t : ty) : option string :=
  match t with TLitString s => Some s | _ => None end.

Definition is_string (t : ty) : bool :=
  match t with TString => true | _ => false end.

(** A key type read as a set of keys: whether it contains [string], and the
    string literals it lists (a union keeps one copy of each). *)
Definition key_has_string (K : ty) : bool := existsb is_string (union_members K).
Definition key_literals (K : ty) : list string :=
  remove_dups (omap lit_string (union_members K)).

(** [typeof X] for [X = [...] as const], a tuple of string literals. *)
Definition typeof_const (xs : list string) : ty := TTuple (TLitString <$> xs).

(** Indexed access [T[number]]. *)
Definition index_number (T : ty) : ty :=
  match T with
  | TTuple elts => union_of elts
  | TArray elt => elt
  | _ => TNever
  end.

(** [Record<K, V>], that is [{ [P in K]: V }].  A union that contains
    [string] absorbs its string literals ([ "a" | string ] is [string]), and
    iterating over [string] gives an index signature; iterating over
    literals gives one required member each. *)
Definition Record_ (K V : ty) : ty :=
  if key_has_string K then TObject [] (Some V)
  else TObject ((fun k => (k, (required, V))) <$> key_literals K) None.

(** [{ [P in K as rename P]: V }] for a union [K] of string literals.
    Members that receive the same name are one member. *)
Definition mapped_as (K : ty) (rename : string -> string) (V : ty) : ty :=
  TObject ((fun k => (k, (required, V))) <$> remove_dups (rename <$> key_literals K)) None.

(** The template literal [`${K}${Suffix}`]. *)
Definition template (Suffix : string) (K : string) : string := K +:+ Suffix.

(** [m extends true], for a constituent of a type bounded by [boolean]. *)
Definition extends_true (m : ty) : bool :=
  match m with TLitBool true => true | _ => false end.

(** The distributive conditional type [V extends true ? X : Y]. *)
Definition cond_extends_true (V X Y : ty) : ty :=
  union_of ((fun m => if extends_true m then X else Y) <$> union_members V).

(** [keyof T] for an object type. *)
Definition keyof (T : ty) : ty :=
  match T with
  | TObject members (Some _) => TString
  | TObject members None => union_of (TLitString <$> remove_dups members.*1)
  | _ => TNever
  end.

(** [m extends U] between key types. *)
Definition key_extends (m U : ty) : bool :=
  match m with
  | TLitString s => bool_decide (s ∈ key_literals U) || key_has_string U
  | TString => key_has_string U
  | _ => false
  end.

(** [Exclude<T, U>], that is [T extends U ? never : T]. *)
Definition Exclude (T U : ty) : ty :=
  union_of (filter (fun m => key_extends m U = false) (union_members T)).

(** [Pick<T, K>], that is [{ [P in K]: T[P] }]: homomorphic, so every
    member keeps its optional mark. *)
Definition Pick (T K : ty) : ty :=
  match T with
  | TObject members index =>
      if key_has_string K then TObject [] index
      else TObject (filter (fun p : member => bool_decide (p.1 ∈ key_literals K)) members) None
  | _ => TNever
  end.

(** [Omit<T, K>], that is [Pick<T, Exclude<keyof T, K>>]. *)
Definition Omit (T K : ty) : ty := Pick T (Exclude (keyof T) K).

(** ** types/color-scheme.ts *)

(** [type Color = string | number] *)
Definition Color : ty := TUnion TString TNumber.

(** [interface StaticColor { name: string; value: Color; blend?: boolean }] *)
Definition StaticColor : ty :=
  TObject [("name", (required, TString));
           ("value", (required, Color));
           ("blend", (optional, TBoolean))] None.

(** The constant [COLOR_SCHEME_KEYS] is declared in ../constants, outside
    the type layer, as a read-only tuple of role names ([as const]); the
    tuple is a parameter here. *)
Class SchemeKeys := COLOR_SCHEME_KEYS : list string.

Section ColorSchemeTypes.

Context {K : SchemeKeys}.

(** [type ColorKey = (typeof COLOR_SCHEME_KEYS)[number]] *)
Definition ColorKey : ty := index_number (typeof_const COLOR_SCHEME_KEYS).

(** [interface ColorScheme extends Record<ColorKey | string, number> {}]:
    the interface adds no member to the record it extends. *)
Definition ColorScheme : ty := Record_ (TUnion ColorKey TString) TNumber.

(** [type CustomColorScheme<T = Record<string, string | number>> =
      T & { [key: string]: number }] *)
Definition CustomColorScheme (T : ty) : ty :=
  TInter T (TObject [] (Some TNumber)).

Definition CustomColorScheme_default_T : ty :=
  Record_ TString (TUnion TString TNumber).

(** [type SuffixedColorScheme<Suffix extends string> =
      { [K in ColorKey as `${K}${Suffix}`]: number }] *)
Definition SuffixedColorScheme (Suffix : string) : ty :=
  mapped_as ColorKey (template Suffix) TNumber.

Definition LightColorScheme : ty := SuffixedColorScheme "Light".

Definition DarkColorScheme : ty := SuffixedColorScheme "Dark".

(** [type ColorSchemeReturnType<V extends boolean> = V extends true
      ? ColorScheme & LightColorScheme & DarkColorScheme : ColorScheme] *)
Definition ColorSchemeReturnType (V : ty) : ty :=
  cond_extends_true V
    (TInter (TInter ColorScheme LightColorScheme) DarkColorScheme)
    ColorScheme.

(** [interface ColorSchemeOptions<V extends boolean = false>], with the
    members [dark?: boolean], [brightnessVariants?: V],
    [paletteTones?: false | number[]] and
    [modifyColorScheme?: <T extends ColorSchemeReturnType<V>>(colorScheme: T) => T]. *)
Definition ColorSchemeOptions (V : ty) : ty :=
  TObject [("dark", (optional, TBoolean));
           ("brightnessVariants", (optional, V));
           ("paletteTones", (optional, TUnion (TLitBool false) (TArray TNumber)));
           ("modifyColorScheme", (optional, TEndo (ColorSchemeReturnType V)))] None.

End ColorSchemeTypes.

(** ** types/theme.ts *)

(** [interface Theme]; [Variant], [DynamicScheme], [TonalPalette] and
    [CustomColorGroup] are imported. *)
Definition Theme : ty :=
  TObject [("source", (required, TNumber));
           ("contrastLevel", (required, TNumber));
           ("variant", (required, TExternal "Variant"));
           ("schemes", (required,
              TObject [("light", (required, TExternal "DynamicScheme"));
                       ("dark", (required, TExternal "DynamicScheme"))] None));
           ("palettes", (required,
              TObject [("primary", (required, TExternal "TonalPalette"));
                       ("secondary", (required, TExternal "TonalPalette"));
                       ("tertiary", (required, TExternal "TonalPalette"));
                       ("neutral", (required, TExternal "TonalPalette"));
                       ("neutralVariant", (required, TExternal "TonalPalette"));
                       ("error", (required, TExternal "TonalPalette"))] None));
           ("customColors", (required, TArray (TExternal "CustomColorGroup")))] None.

Section ThemeTypes.

(** The interface [SchemeOptions] is declared in ./scheme.ts, outside the
    two files of the type layer; its members are a parameter here. *)
Variable SchemeOptions_members : list member.

Definition SchemeOptions : ty := TObject SchemeOptions_members None.

(** [type ThemeOptions = Omit<SchemeOptions, 'isDark'> &
      { staticColors?: StaticColor[] }] *)
Definition ThemeOptions : ty :=
  TInter (Omit SchemeOptions (TLitString "isDark"))
         (TObject [("staticColors", (optional, TArray StaticColor))] None).

End ThemeTypes.

(** ** Reading a declared type *)

Definition members_of (T : ty) : list member :=
  match T with TObject members _ => members | _ => [] end.

Definition index_of (T : ty) : option ty :=
  match T with TObject _ index => index | _ => None end.

Definition member_names (T : ty) : list string := (members_of T).*1.

(** The declaration of the member [k] of an object type. *)
Definition member_decl (T : ty) (k : string) : option (bool * ty) :=
  (list_to_map (members_of T) : gmap string (bool * ty)) !! k.

(** The members a type requires of its values, and the names it declares,
    through intersections. *)
Fixpoint required_members (T : ty) : list (string * ty) :=
  match T with
  | TObject members _ =>
      omap (fun p : member => if p.2.1 then None else Some (p.1, p.2.2)) members
  | TInter a b => required_members a ++ required_members b
  | _ => []
  end.

Fixpoint declared_names (T : ty) : list string :=
  match T with
  | TObject members _ => members.*1
  | TInter a b => declared_names a ++ declared_names b
  | _ => []
  end.

(** The entry an object has at a key ([undefined] entries included). *)
Definition entry (v : value) (k : string) : option value :=
  match v with VObject fields => fields !! k | _ => None end.

Section Contracts.

Context {E : Externals} {K : SchemeKeys}.

(** [T] accepts one more entry [k: x] on any of its objects: [k] is none
    of its declared members and its index signature, if any, admits [x]. *)
Fixpoint admits_entry (T : ty) (k : string) (x : value) : bool :=
  match T with
  | TObject members index =>
      bool_decide (k ∉ members.*1)
      && match index with None => true | Some t => has_type t x end
  | TInter a b => admits_entry a k x && admits_entry b k x
  | _ => false
  end.

(** ** The specification's reading of the declarations *)

(** [ColorSchemeReturnType<V>] as the specification words it: the
    combination of the three schemes for [true], the base scheme alone
    for [false]. *)
Definition spec_ColorSchemeReturnType (V : bool) (v : value) : bool :=
  if V
  then has_type ColorScheme v && has_type LightColorScheme v
       && has_type DarkColorScheme v
  else has_type ColorScheme v.

End Contracts.

(** [ThemeOptions] as the specification words it: the scheme options
    without the dark-mode member, and an optional list of static colours. *)
Definition spec_ThemeOptions (SchemeOptions_members : list member) : ty :=
  TInter (TObject (filter (fun p : member => p.1 ≠ "isDark") SchemeOptions_members) None)
         (TObject [("staticColors", (optional, TArray StaticColor))] None).

(** ** Sample inputs *)

Module Sample.

(** The key set of the specification's example scenario. *)
Definition keys : SchemeKeys := ["primary"; "secondary"].

(** An environment in which every external type accepts objects only. *)
Definition objects_only : Externals :=
  fun name v => match v with VObject _ => true | _ => false end.

Definition empty_scheme : value := VObject ∅.

Definition base_scheme : value :=
  VObject {[ "primary" := VNumber 4284960932; "secondary" := VNumber 4284636017 ]}.

Definition full_scheme : value :=
  VObject {[ "primary" := VNumber 4284960932;
             "primaryLight" := VNumber 4284960932;
             "primaryDark" := VNumber 4291869951;
             "secondaryLight" := VNumber 4284636017;
             "secondaryDark" := VNumber 4291609308 ]}.

Definition no_tones : value := VObject {[ "paletteTones" := VArray [] ]}.

(** An object type with one required numeric member. *)
Definition brand : ty := TObject [("brand", (required, TNumber))] None.

Definition scheme_options : list member :=
  [("isDark", (optional, TBoolean)); ("contrastLevel", (optional, TNumber))].

End Sample.

(** ** Further sample inputs *)

Module Fixtures.

(** The sample roles in another order, one of them twice. *)
Definition keys_shuffled : SchemeKeys := ["secondary"; "primary"; "secondary"].

Definition static_color_fields : gmap string value :=
  {[ "name" := VString "brand";
     "value" := VString "#0000ff";
     "blend" := VBool true ]}.

Definition static_color : value := VObject static_color_fields.

(** The entries of a scheme with brightness variants. *)
Definition variant_fields : gmap string value :=
  {[ "primary" := VNumber 4284960932;
     "primaryLight" := VNumber 4284960932;
     "primaryDark" := VNumber 4291869951;
     "secondary" := VNumber 4284636017;
     "secondaryLight" := VNumber 4284636017;
     "secondaryDark" := VNumber 4291609308 ]}.

Definition base_fields : gmap string value :=
  {[ "primary" := VNumber 4284960932; "secondary" := VNumber 4284636017 ]}.

Definition brand_fields : gmap string value :=
  {[ "brand" := VNumber 4278190335; "primary" := VNumber 4278190080 ]}.

(** External types as the colour library has them: [Variant] is a numeric
    enumeration, the classes and [CustomColorGroup] are objects. *)
Definition library : Externals :=
  fun name v =>
    match v with
    | VNumber _ => bool_decide (name = "Variant")
    | VObject _ => negb (bool_decide (name = "Variant"))
    | _ => false
    end.

(** A theme that carries one entry more than [Theme] declares. *)
Definition theme_with_note : value :=
  VObject {[ "source" := VNumber 4284960932;
             "contrastLevel" := VNumber 0;
             "variant" := VNumber 2;
             "schemes" := VObject {[ "light" := VObject ∅; "dark" := VObject ∅ ]};
             "palettes" := VObject {[ "primary" := VObject ∅;
                                      "secondary" := VObject ∅;
                                      "tertiary" := VObject ∅;
                                      "neutral" := VObject ∅;
                                      "neutralVariant" := VObject ∅;
                                      "error" := VObject ∅ ]};
             "customColors" := VArray [];
             "note" := VString "draft" ]}.

Definition options : value :=
  VObject {[ "dark" := VBool true;
             "brightnessVariants" := VBool false;
             "paletteTones" := VArray [VNumber 0; VNumber 10; VNumber 20] ]}.

End Fixtures.

(** * Facts *)

(** ** Values and members *)

Lemma is_undefined_true (v : value) : is_undefined v = true <-> v = VUndefined.
Proof. destruct v; simpl; split; congruence. Qed.

Lemma member_ok_required (check : value -> bool) (entry : option value) :
  member_ok required check entry = true <->
  exists x, entry = Some x /\ check x = true.
Proof.
  unfold member_ok, required. destruct entry as [x|]; simpl.
  - rewrite orb_false_r. split; [eauto | intros (y & [= <-] & ?); done].
  - split; [done | intros (y & ? & ?); done].
Qed.

Lemma member_ok_optional (check : value -> bool) (entry : option value) :
  member_ok optional check entry = true <->
  entry = None \/ exists x, entry = Some x /\ (check x = true \/ x = VUndefined).
Proof.
  unfold member_ok, optional. destruct entry as [x|]; simpl.
  - rewrite orb_true_iff, is_undefined_true. split.
    + intros H. right. eauto.
    + intros [? | (y & [= <-] & H)]; done.
  - split; [by left | done].
Qed.

Lemma entries_ok_spec (check : value -> bool) (fields : gmap string value) :
  entries_ok check fields = true <->
  forall k x, fields !! k = Some x -> check x = true.
Proof.
  unfold entries_ok. rewrite forallb_forall. split.
  - intros H k x Hk. apply (H (k, x)).
    apply list_elem_of_In, elem_of_map_to_list, Hk.
  - intros H [k x] Hin. apply list_elem_of_In, elem_of_map_to_list in Hin.
    simpl. eauto.
Qed.

Section TypingFacts.

Context {E : Externals}.

Lemma has_type_inter (a b : ty) (v : value) :
  has_type (TInter a b) v = has_type a v && has_type b v.
Proof. reflexivity. Qed.

Lemma has_type_union (a b : ty) (v : value) :
  has_type (TUnion a b) v = has_type a v || has_type b v.
Proof. reflexivity. Qed.

Lemma has_type_number (v : value) :
  has_type TNumber v = true <-> exists n, v = VNumber n.
Proof. destruct v; simpl; split; try done; eauto; intros [? ?]; done. Qed.

Lemma has_type_array (elt : ty) (v : value) :
  has_type (TArray elt) v = true <->
  exists xs, v = VArray xs /\ Forall (fun x => has_type elt x = true) xs.
Proof.
  destruct v; simpl; try (split; [done | intros (? & ? & ?); done]).
  rewrite forallb_forall. split.
  - intros H. eexists; split; [done |].
    apply Forall_forall. intros x Hx. by apply H, list_elem_of_In.
  - intros (ys & [= <-] & H) x Hx.
    rewrite Forall_forall in H. by apply H, list_elem_of_In.
Qed.

(** Membership in an object type, member by member. *)
Lemma has_type_object (members : list member) (index : option ty) (v : value) :
  has_type (TObject members index) v = true <->
  exists fields, v = VObject fields
    /\ (forall k opt t, (k, (opt, t)) ∈ members ->
          member_ok opt (has_type t) (fields !! k) = true)
    /\ (forall t, index = Some t ->
          forall k x, fields !! k = Some x -> has_type t x = true).
Proof.
  destruct v; simpl; try (split; [done | intros (? & ? & ?); done]).
  rewrite andb_true_iff, forallb_forall. split.
  - intros [Hm Hi]. eexists; split; [done |]. split.
    + intros k opt t Hin. apply list_elem_of_In in Hin. apply (Hm _ Hin).
    + intros t -> k x Hk. rewrite entries_ok_spec in Hi. eauto.
  - intros (fs & [= <-] & Hm & Hi). split.
    + intros [k [opt t]] Hin. apply list_elem_of_In in Hin. by apply Hm.
    + destruct index as [t|]; [| done]. apply entries_ok_spec. by apply Hi.
Qed.

Lemma has_type_object_is_object (members : list member) index (v : value) :
  has_type (TObject members index) v = true -> exists fields, v = VObject fields.
Proof. rewrite has_type_object. intros (fields & -> & _). eauto. Qed.

End TypingFacts.

(** ** Strings and lists *)

Lemma append_length (a b : string) :
  String.length (a +:+ b) = String.length a + String.length b.
Proof. induction a as [|c a IH]; simpl; [done | by rewrite IH]. Qed.

(** A template literal with a fixed suffix names each key differently. *)
Lemma template_inj (Suffix : string) : Inj (=) (=) (template Suffix).
Proof.
  unfold template. intros k. induction k as [|c k IH]; intros [|c' k'] H; simpl in H.
  - done.
  - apply (f_equal String.length) in H. simpl in H. rewrite !append_length in H.
    simpl in H. lia.
  - apply (f_equal String.length) in H. simpl in H. rewrite !append_length in H.
    simpl in H. lia.
  - injection H as -> H. f_equal. by apply IH.
Qed.

Lemma remove_dups_NoDup_id {A} `{EqDecision A} (l : list A) :
  NoDup l -> remove_dups l = l.
Proof.
  induction 1 as [|x l Hx _ IH]; simpl; [done |].
  destruct (decide_rel elem_of x l); [done | by rewrite IH].
Qed.

(** ** The type-level operators *)

Lemma union_members_literals (l : list string) :
  union_members (union_of (TLitString <$> l)) = TLitString <$> l.
Proof.
  destruct l as [|k l]; [done |].
  revert k. induction l as [|k' l IH]; intros k; [done |].
  change (union_members (union_of (TLitString <$> k :: k' :: l)))
    with (TLitString k :: union_members (union_of (TLitString <$> k' :: l))).
  by rewrite IH.
Qed.

Lemma omap_lit_string (l : list string) : omap lit_string (TLitString <$> l) = l.
Proof. induction l as [|k l IH]; [done |]. csimpl. f_equal. exact IH. Qed.

Lemma existsb_is_string_literals (l : list string) :
  existsb is_string (TLitString <$> l) = false.
Proof. by induction l. Qed.

Lemma key_literals_literals (l : list string) :
  key_literals (union_of (TLitString <$> l)) = remove_dups l.
Proof. unfold key_literals. by rewrite union_members_literals, omap_lit_string. Qed.

Lemma key_has_string_literals (l : list string) :
  key_has_string (union_of (TLitString <$> l)) = false.
Proof.
  unfold key_has_string. by rewrite union_members_literals, existsb_is_string_literals.
Qed.

Section ColorSchemeFacts.

Context {E : Externals} {K : SchemeKeys}.

Lemma ColorKey_literals : key_literals ColorKey = remove_dups COLOR_SCHEME_KEYS.
Proof. apply key_literals_literals. Qed.

Lemma ColorKey_has_no_string : key_has_string ColorKey = false.
Proof. apply key_has_string_literals. Qed.

(** The key type [ColorKey | string] contains [string], so the record is
    the string index signature and lists no member. *)
Lemma ColorScheme_unfold : ColorScheme = TObject [] (Some TNumber).
Proof.
  unfold ColorScheme, Record_, key_has_string.
  simpl union_members. rewrite existsb_app. simpl. by rewrite orb_true_r.
Qed.

Lemma SuffixedColorScheme_unfold (Suffix : string) :
  SuffixedColorScheme Suffix =
  TObject ((fun k => (k, (required, TNumber)))
             <$> (template Suffix <$> remove_dups COLOR_SCHEME_KEYS)) None.
Proof.
  unfold SuffixedColorScheme, mapped_as.
  rewrite ColorKey_literals. f_equal. f_equal.
  apply remove_dups_NoDup_id, NoDup_fmap_2; [apply template_inj |].
  apply NoDup_remove_dups.
Qed.

Lemma ColorSchemeReturnType_true :
  ColorSchemeReturnType (TLitBool true) =
  TInter (TInter ColorScheme LightColorScheme) DarkColorScheme.
Proof. reflexivity. Qed.

Lemma ColorSchemeReturnType_false : ColorSchemeReturnType (TLitBool false) = ColorScheme.
Proof. reflexivity. Qed.

Lemma ColorSchemeReturnType_boolean :
  ColorSchemeReturnType TBoolean =
  TUnion (TInter (TInter ColorScheme LightColorScheme) DarkColorScheme) ColorScheme.
Proof. reflexivity. Qed.

(** What it takes to be a [ColorScheme]. *)
Lemma has_type_ColorScheme (v : value) :
  has_type ColorScheme v = true <->
  exists fields, v = VObject fields
    /\ forall k x, fields !! k = Some x -> exists n, x = VNumber n.
Proof.
  rewrite ColorScheme_unfold, has_type_object. split.
  - intros (fields & -> & _ & Hi). eexists; split; [done |].
    intros k x Hk. apply has_type_number. by eapply Hi.
  - intros (fields & -> & H). eexists; split; [done |]. split.
    + intros k opt t Hin. by apply elem_of_nil in Hin.
    + intros t [= <-] k x Hk. apply has_type_number. eauto.
Qed.

(** What it takes to be a [SuffixedColorScheme<Suffix>]. *)
Lemma has_type_SuffixedColorScheme (Suffix : string) (v : value) :
  has_type (SuffixedColorScheme Suffix) v = true <->
  exists fields, v = VObject fields
    /\ forall k, k ∈ COLOR_SCHEME_KEYS ->
         exists n, fields !! (k +:+ Suffix) = Some (VNumber n).
Proof.
  rewrite SuffixedColorScheme_unfold, has_type_object. split.
  - intros (fields & -> & Hm & _). eexists; split; [done |].
    intros k Hk.
    assert (Hin : (template Suffix k, (required, TNumber))
                    ∈ (fun k => (k, (required, TNumber)))
                        <$> (template Suffix <$> remove_dups COLOR_SCHEME_KEYS)).
    { apply list_elem_of_fmap. eexists; split; [done |].
      apply list_elem_of_fmap. eexists; split; [done |].
      by rewrite elem_of_remove_dups. }
    apply Hm, member_ok_required in Hin as (x & Hx & Hn).
    apply has_type_number in Hn as [n ->]. eauto.
  - intros (fields & -> & H). eexists; split; [done |]. split; [| done].
    intros k' opt t Hin.
    apply list_elem_of_fmap in Hin as (n' & [= -> -> ->] & Hin).
    apply list_elem_of_fmap in Hin as (k & -> & Hin).
    rewrite elem_of_remove_dups in Hin. apply H in Hin as [n Hn].
    apply member_ok_required. unfold template. rewrite Hn. eauto.
Qed.

End ColorSchemeFacts.

Lemma has_type_literals {E : Externals} (l : list string) (v : value) :
  has_type (union_of (TLitString <$> l)) v = true <->
  exists s, v = VString s /\ s ∈ l.
Proof.
  destruct l as [|k l].
  { simpl. split; [done | intros (s & _ & H); by apply elem_of_nil in H]. }
  revert k. induction l as [|k' l IH]; intros k.
  - simpl. destruct v; try (split; [done | intros (? & ? & ?); done]).
    rewrite bool_decide_eq_true. split.
    + intros ->. eexists; split; [done | apply list_elem_of_here].
    + intros (s' & [= <-] & H). by apply list_elem_of_singleton in H.
  - change (has_type (union_of (TLitString <$> k :: k' :: l)) v)
      with (has_type (TLitString k) v
            || has_type (union_of (TLitString <$> k' :: l)) v).
    rewrite orb_true_iff, IH. split.
    + intros [H | (s & -> & H)].
      * destruct v; try done. apply bool_decide_eq_true in H as ->.
        eexists; split; [done | apply list_elem_of_here].
      * eexists; split; [done | by apply list_elem_of_further].
    + intros (s & -> & H). apply elem_of_cons in H as [-> | H].
      * left. simpl. by apply bool_decide_eq_true.
      * right. eauto.
Qed.

(** * The claims about types/color-scheme.ts *)

Section ColorSchemeClaims.

Context {E : Externals} {K : SchemeKeys}.

(** C1.  For either flag, [ColorSchemeReturnType<true>] is the
    intersection of [ColorScheme], [LightColorScheme] and
    [DarkColorScheme], and [ColorSchemeReturnType<false>] is [ColorScheme]
    alone: the conditional type evaluates to that type expression, a
    value belongs to it exactly when the specification's reading accepts
    it, and for [true] that means an object of numbers that has the
    [Light] and the [Dark] key of every role. *)
Theorem ColorSchemeReturnType_structure (V : bool) :
  ColorSchemeReturnType (TLitBool V)
  = (if V then TInter (TInter ColorScheme LightColorScheme) DarkColorScheme
     else ColorScheme)
  /\ (forall v, has_type (ColorSchemeReturnType (TLitBool V)) v
                = spec_ColorSchemeReturnType V v)
  /\ (forall v, has_type (ColorSchemeReturnType (TLitBool true)) v = true <->
        exists fields, v = VObject fields
          /\ (forall k x, fields !! k = Some x -> exists n, x = VNumber n)
          /\ (forall k, k ∈ COLOR_SCHEME_KEYS ->
                is_Some (fields !! (k +:+ "Light"))
                /\ is_Some (fields !! (k +:+ "Dark")))).
Proof.
  split; [by destruct V |]. split; [by destruct V |].
  intros v. rewrite ColorSchemeReturnType_true, !has_type_inter.
  rewrite !andb_true_iff, has_type_ColorScheme.
  unfold LightColorScheme, DarkColorScheme.
  rewrite !has_type_SuffixedColorScheme. split.
  - intros [[(fields & -> & Hn) (f1 & [= <-] & Hl)] (f2 & [= <-] & Hd)].
    eexists; split; [done |]. split; [done |].
    intros k Hk. destruct (Hl k Hk) as [n1 H1], (Hd k Hk) as [n2 H2].
    rewrite H1, H2. eauto.
  - intros (fields & -> & Hn & Hk). repeat split.
    + eauto.
    + eexists; split; [done |]. intros k Hin.
      destruct (Hk k Hin) as [[x Hx] _]. destruct (Hn _ _ Hx) as [n ->]. eauto.
    + eexists; split; [done |]. intros k Hin.
      destruct (Hk k Hin) as [_ [x Hx]]. destruct (Hn _ _ Hx) as [n ->]. eauto.
Qed.

(** C2, as the code has it.  [ColorScheme] is the string index signature
    over [number]: a value conforms exactly when it is an object whose
    every entry is a number.  No key is required (the empty object
    conforms); an entry at a role name, when present, is a number. *)
Theorem ColorScheme_requires_no_key :
  (forall v, has_type ColorScheme v = true <->
     exists fields, v = VObject fields
       /\ forall k x, fields !! k = Some x -> exists n, x = VNumber n)
  /\ has_type ColorScheme (VObject ∅) = true
  /\ members_of ColorScheme = [].
Proof.
  split; [apply has_type_ColorScheme |]. split.
  - apply has_type_ColorScheme. eexists; split; [done |].
    intros k x Hk. by rewrite lookup_empty in Hk.
  - by rewrite ColorScheme_unfold.
Qed.

(** [ColorKey] is the element type of the tuple [COLOR_SCHEME_KEYS]: a
    value is a [ColorKey] exactly when it is a string the tuple lists. *)
Lemma ColorKey_values (v : value) :
  has_type ColorKey v = true <-> exists s, v = VString s /\ s ∈ COLOR_SCHEME_KEYS.
Proof. apply has_type_literals. Qed.

(** C4.  For each suffix (so for [Light] and [Dark]) the suffixed scheme
    type has no index signature and lists no name twice; its members are
    exactly the role names followed by the suffix, each required and
    numeric; different roles give different members, so there are as many
    members as roles; and a value conforms exactly when it is an object
    with a number at every such key. *)
Theorem SuffixedColorScheme_one_key_per_role (Suffix : string) :
  LightColorScheme = SuffixedColorScheme "Light"
  /\ DarkColorScheme = SuffixedColorScheme "Dark"
  /\ index_of (SuffixedColorScheme Suffix) = None
  /\ NoDup (member_names (SuffixedColorScheme Suffix))
  /\ (forall name opt t,
        (name, (opt, t)) ∈ members_of (SuffixedColorScheme Suffix) <->
        opt = required /\ t = TNumber
        /\ exists k, k ∈ COLOR_SCHEME_KEYS /\ name = k +:+ Suffix)
  /\ (forall k k', k +:+ Suffix = k' +:+ Suffix -> k = k')
  /\ length (members_of (SuffixedColorScheme Suffix))
     = length (remove_dups COLOR_SCHEME_KEYS)
  /\ (forall v, has_type (SuffixedColorScheme Suffix) v = true <->
        exists fields, v = VObject fields
          /\ forall k, k ∈ COLOR_SCHEME_KEYS ->
               exists n, fields !! (k +:+ Suffix) = Some (VNumber n)).
Proof.
  split; [done |]. split; [done |].
  split; [by rewrite SuffixedColorScheme_unfold |].
  split; [| split; [| split; [| split]]].
  - rewrite SuffixedColorScheme_unfold. unfold member_names. simpl.
    rewrite <- !list_fmap_compose.
    apply NoDup_fmap_2; [| apply NoDup_remove_dups].
    intros k k' H. simpl in H. by apply (template_inj Suffix).
  - intros name opt t. rewrite SuffixedColorScheme_unfold. simpl.
    rewrite list_elem_of_fmap. split.
    + intros (n' & [= -> -> ->] & Hin).
      apply list_elem_of_fmap in Hin as (k & -> & Hin).
      rewrite elem_of_remove_dups in Hin. do 2 (split; [done |]). by exists k.
    + intros (-> & -> & k & Hk & ->). eexists; split; [done |].
      apply list_elem_of_fmap. eexists; split; [done |].
      by rewrite elem_of_remove_dups.
  - intros k k' H. by apply (template_inj Suffix).
  - rewrite SuffixedColorScheme_unfold. simpl. by rewrite !length_fmap.
  - apply has_type_SuffixedColorScheme.
Qed.

End ColorSchemeClaims.

(** ** Required members and extra entries *)

Section MemberFacts.

Context {E : Externals}.

Lemma required_members_declared (T : ty) k t :
  (k, t) ∈ required_members T -> k ∈ declared_names T.
Proof.
  induction T; simpl; try (intros H; by apply elem_of_nil in H).
  - rewrite !elem_of_app. tauto.
  - intros H. apply list_elem_of_omap in H as ([k' [opt t']] & Hin & Hp).
    simpl in Hp. destruct opt; [done |]. injection Hp as -> ->.
    apply list_elem_of_fmap. by exists (k, (false, t)).
Qed.

(** A conforming object has every required member, at its declared type. *)
Lemma has_type_required_members (T : ty) (fields : gmap string value) k t :
  has_type T (VObject fields) = true ->
  (k, t) ∈ required_members T ->
  exists x, fields !! k = Some x /\ has_type t x = true.
Proof.
  induction T; simpl required_members; try (intros _ H; by apply elem_of_nil in H).
  - rewrite has_type_inter, andb_true_iff, elem_of_app. intros [Ha Hb] [H | H]; eauto.
  - intros HT H. apply list_elem_of_omap in H as ([k' [opt t']] & Hin & Hp).
    simpl in Hp. destruct opt; [done |]. injection Hp as -> ->.
    apply has_type_object in HT as (fs & [= <-] & Hm & _).
    apply Hm in Hin. by apply member_ok_required in Hin.
Qed.

(** One more entry at a key the type admits keeps the object conforming. *)
Lemma has_type_admits_entry (T : ty) (fields : gmap string value) k x :
  has_type T (VObject fields) = true ->
  admits_entry T k x = true ->
  has_type T (VObject (<[k:=x]> fields)) = true.
Proof.
  induction T; simpl admits_entry; try done.
  - rewrite !has_type_inter, !andb_true_iff. intros [Ha Hb] [Ka Kb]. eauto.
  - rewrite andb_true_iff, bool_decide_eq_true. intros HT [Hk Hx].
    apply has_type_object in HT as (fs & [= <-] & Hm & Hi).
    apply has_type_object. eexists; split; [done |]. split.
    + intros k' opt t Hin. rewrite lookup_insert_ne; [by apply Hm |].
      intros <-. apply Hk, list_elem_of_fmap. by exists (k, (opt, t)).
    + intros t -> k' x' Hk'. destruct (decide (k = k')) as [<- | Hne].
      * rewrite lookup_insert_eq in Hk'. by injection Hk' as <-.
      * rewrite lookup_insert_ne in Hk' by done. by eapply Hi.
Qed.

Lemma has_type_index_number (fields : gmap string value) :
  has_type (TObject [] (Some TNumber)) (VObject fields) = true <->
  forall k x, fields !! k = Some x -> exists n, x = VNumber n.
Proof.
  rewrite has_type_object. split.
  - intros (fs & [= <-] & _ & Hi) k x Hk. apply has_type_number. by eapply Hi.
  - intros H. eexists; split; [done |]. split.
    + intros k opt t Hin. by apply elem_of_nil in Hin.
    + intros t [= <-] k x Hk. apply has_type_number. eauto.
Qed.

End MemberFacts.

(** * The claims about [CustomColorScheme] *)

Section CustomColorSchemeClaims.

Context {E : Externals}.

(** C5.  A value of [CustomColorScheme<T>] is a value of [T], so it is an
    object that has every required member of [T] at its declared type.
    A numeric entry added at a key [T] does not declare leaves all of
    these members as they were and keeps the numeric index signature;
    where [T] admits the entry (as the default [T] admits every numeric
    entry) the extended object is again a [CustomColorScheme<T>]. *)
Theorem CustomColorScheme_keeps_T (T : ty) (v : value) :
  has_type (CustomColorScheme T) v = true ->
  has_type T v = true
  /\ exists fields, v = VObject fields
     /\ (forall k t, (k, t) ∈ required_members T ->
           exists x, fields !! k = Some x /\ has_type t x = true)
     /\ (forall k n, k ∉ declared_names T ->
           (forall k' t, (k', t) ∈ required_members T ->
              exists x, (<[k:=VNumber n]> fields) !! k' = Some x
                        /\ has_type t x = true)
           /\ has_type (TObject [] (Some TNumber))
                (VObject (<[k:=VNumber n]> fields)) = true
           /\ (admits_entry T k (VNumber n) = true ->
               has_type (CustomColorScheme T)
                 (VObject (<[k:=VNumber n]> fields)) = true))
     /\ (forall k n,
           (k ∉ declared_names CustomColorScheme_default_T)
           /\ admits_entry CustomColorScheme_default_T k (VNumber n) = true).
Proof.
  unfold CustomColorScheme. rewrite has_type_inter, andb_true_iff.
  intros [HT Hn]. split; [done |].
  destruct (has_type_object_is_object _ _ _ Hn) as [fields ->].
  exists fields. split; [done |].
  split; [intros k t; by apply has_type_required_members |].
  split; [| intros k n; split; [apply not_elem_of_nil | done]].
  intros k n Hk.
  assert (Hn' : has_type (TObject [] (Some TNumber))
                  (VObject (<[k:=VNumber n]> fields)) = true).
  { by apply has_type_admits_entry. }
  split; [| split; [done |]].
  - intros k' t Hin. rewrite lookup_insert_ne.
    + by apply (has_type_required_members T).
    + intros <-. by apply Hk, (required_members_declared T k t).
  - intros Ha. rewrite has_type_inter, Hn', andb_true_r.
    by apply has_type_admits_entry.
Qed.

(** C10.  With the default parameter every entry of a
    [CustomColorScheme] is a number; an object with a string-valued entry
    is not one, although the default [T] alone accepts it. *)
Theorem CustomColorScheme_default_numbers_only :
  (forall fields k x,
     has_type (CustomColorScheme CustomColorScheme_default_T) (VObject fields) = true ->
     fields !! k = Some x -> exists n, x = VNumber n)
  /\ (forall fields k s,
        fields !! k = Some (VString s) ->
        has_type (CustomColorScheme CustomColorScheme_default_T) (VObject fields) = false)
  /\ (forall k s,
        has_type CustomColorScheme_default_T (VObject {[ k := VString s ]}) = true).
Proof.
  assert (Hnum : forall fields k x,
    has_type (CustomColorScheme CustomColorScheme_default_T) (VObject fields) = true ->
    fields !! k = Some x -> exists n, x = VNumber n).
  { intros fields k x. unfold CustomColorScheme.
    rewrite has_type_inter, andb_true_iff, has_type_index_number.
    intros [_ H]. apply H. }
  split; [exact Hnum |]. split.
  - intros fields k s Hk. apply not_true_is_false. intros H.
    by destruct (Hnum _ _ _ H Hk).
  - intros k s. apply has_type_object. eexists; split; [done |]. split.
    + intros k' opt t Hin. by apply elem_of_nil in Hin.
    + intros t [= <-] k' x Hk'. apply lookup_singleton_Some in Hk' as [_ <-]. done.
Qed.

End CustomColorSchemeClaims.

(** * The claims about [ColorSchemeOptions] *)

Lemma has_type_union_of {E : Externals} (ts : list ty) (v : value) :
  has_type (union_of ts) v = true <-> exists t, t ∈ ts /\ has_type t v = true.
Proof.
  destruct ts as [|t ts].
  { simpl. split; [done | intros (t & H & _); by apply elem_of_nil in H]. }
  revert t. induction ts as [|t' ts IH]; intros t.
  - simpl. split.
    + intros H. exists t. split; [apply list_elem_of_here | done].
    + intros (t' & H & Ht'). by apply list_elem_of_singleton in H as ->.
  - change (has_type (union_of (t :: t' :: ts)) v)
      with (has_type t v || has_type (union_of (t' :: ts)) v).
    rewrite orb_true_iff, IH. split.
    + intros [H | (u & Hu & H)].
      * exists t. split; [apply list_elem_of_here | done].
      * exists u. split; [by apply list_elem_of_further | done].
    + intros (u & Hu & H). apply elem_of_cons in Hu as [-> | Hu]; eauto.
Qed.

Section ColorSchemeOptionsClaims.

Context {E : Externals} {K : SchemeKeys}.

(** Whatever the flag, a value of [ColorSchemeReturnType<V>] is a
    [ColorScheme]. *)
Lemma ColorSchemeReturnType_ColorScheme (V : ty) (v : value) :
  has_type (ColorSchemeReturnType V) v = true -> has_type ColorScheme v = true.
Proof.
  unfold ColorSchemeReturnType, cond_extends_true. rewrite has_type_union_of.
  intros (t & Hin & Ht). apply list_elem_of_fmap in Hin as (m & -> & _).
  destruct (extends_true m); [| done].
  rewrite !has_type_inter, !andb_true_iff in Ht. tauto.
Qed.

End ColorSchemeOptionsClaims.

Lemma array_of_numbers {E : Externals} (xs : list value) :
  Forall (fun x => has_type TNumber x = true) xs <->
  exists ns : list Z, xs = VNumber <$> ns.
Proof.
  split.
  - induction 1 as [|x xs Hx _ [ns ->]]; [by exists [] |].
    apply has_type_number in Hx as [n ->]. by exists (n :: ns).
  - intros [ns ->]. apply Forall_fmap, Forall_forall. done.
Qed.

Section PaletteTonesClaim.

Context {E : Externals} {K : SchemeKeys}.

(** C7, as the code has it.  In a value of [ColorSchemeOptions] the
    entry [paletteTones], when present and not [undefined], is the
    literal [false] or a list of numbers in the order given.  The list
    may be empty and its numbers are not restricted: every list of
    numbers is accepted, and so is [false]. *)
Theorem paletteTones_false_or_numbers (V : ty) :
  (forall o x,
     has_type (ColorSchemeOptions V) o = true ->
     entry o "paletteTones" = Some x -> x <> VUndefined ->
     x = VBool false \/ exists ns : list Z, x = VArray (VNumber <$> ns))
  /\ (forall ns : list Z,
        has_type (ColorSchemeOptions V)
          (VObject {[ "paletteTones" := VArray (VNumber <$> ns) ]}) = true)
  /\ has_type (ColorSchemeOptions V)
       (VObject {[ "paletteTones" := VBool false ]}) = true.
Proof.
  assert (Hshape : forall x,
    has_type (ColorSchemeOptions V) (VObject {[ "paletteTones" := x ]})
    = has_type (TUnion (TLitBool false) (TArray TNumber)) x || is_undefined x).
  { intros x. simpl has_type at 1.
    rewrite lookup_singleton_eq, !lookup_singleton_ne by done.
    simpl. by rewrite !andb_true_r. }
  split; [| split].
  - intros o x Ho Hx Hdef.
    apply has_type_object in Ho as (fields & -> & Hm & _). simpl in Hx.
    assert (Hin : ("paletteTones",
                   (optional, TUnion (TLitBool false) (TArray TNumber)))
                  ∈ members_of (ColorSchemeOptions V)).
    { simpl. do 2 apply list_elem_of_further. apply list_elem_of_here. }
    apply Hm, member_ok_optional in Hin as [Hin | (y & Hy & [Ht | ->])];
      [congruence | | congruence].
    rewrite Hx in Hy. injection Hy as <-.
    rewrite has_type_union, orb_true_iff in Ht. destruct Ht as [Ht | Ht].
    + left. destruct x; try done. simpl in Ht.
      by apply bool_decide_eq_true in Ht as ->.
    + right. apply has_type_array in Ht as (xs & -> & Hxs).
      apply array_of_numbers in Hxs as [ns ->]. eauto.
  - intros ns. rewrite Hshape, has_type_union.
    assert (H : has_type (TArray TNumber) (VArray (VNumber <$> ns)) = true).
    { apply has_type_array. eexists; split; [done |].
      apply array_of_numbers. eauto. }
    by rewrite H, orb_true_r.
  - by rewrite Hshape.
Qed.

End PaletteTonesClaim.

(** * The claims about types/theme.ts *)

Lemma filter_ext_in {A} (P Q : A -> Prop) `{!forall x, Decision (P x)}
    `{!forall x, Decision (Q x)} (l : list A) :
  (forall x, x ∈ l -> P x <-> Q x) -> filter P l = filter Q l.
Proof.
  induction l as [|x l IH]; intros Hext; [done |].
  rewrite !filter_cons.
  assert (Hx : P x <-> Q x) by (apply Hext, list_elem_of_here).
  rewrite IH by (intros y Hy; apply Hext; by apply list_elem_of_further).
  destruct (decide (P x)), (decide (Q x)); tauto.
Qed.

Lemma filter_literals (P : string -> Prop) `{!forall s, Decision (P s)}
    (Q : ty -> Prop) `{!forall t, Decision (Q t)} (l : list string) :
  (forall s, Q (TLitString s) <-> P s) ->
  filter Q (TLitString <$> l) = TLitString <$> filter P l.
Proof.
  intros Hext. induction l as [|s l IH]; [done |].
  rewrite fmap_cons, !filter_cons, IH.
  destruct (decide (Q (TLitString s))) as [Hq | Hq], (decide (P s)) as [Hp | Hp];
    try done; exfalso; rewrite Hext in Hq; done.
Qed.

Section ThemeClaims.

Context {E : Externals}.
Context (SchemeOptions_members : list member).

(** [Omit] takes the member [isDark], and nothing else, out of an
    interface. *)
Lemma Omit_isDark :
  Omit (SchemeOptions SchemeOptions_members) (TLitString "isDark")
  = TObject (filter (fun p : member => p.1 ≠ "isDark") SchemeOptions_members) None.
Proof.
  unfold Omit, SchemeOptions, keyof, Exclude, Pick.
  rewrite union_members_literals.
  rewrite (filter_literals (fun s => s ≠ "isDark")).
  2:{ intros s. unfold key_extends, key_literals, key_has_string. simpl.
      rewrite orb_false_r, bool_decide_eq_false, list_elem_of_singleton. done. }
  rewrite key_has_string_literals, key_literals_literals. f_equal.
  apply filter_ext_in. intros [k d] Hin. simpl.
  rewrite bool_decide_spec, elem_of_remove_dups, list_elem_of_filter, elem_of_remove_dups.
  split; [tauto |]. intros Hne. split; [done |].
  apply list_elem_of_fmap. by exists (k, d).
Qed.

(** C8.  [ThemeOptions] is the scheme options with the dark-mode member
    [isDark] removed and an optional [staticColors] list added: the
    declaration evaluates to exactly that type.  The omission keeps every
    other member of the scheme options, with its optional mark and its
    type, and adds no index signature; so a value conforms to
    [ThemeOptions] exactly when it conforms to that type. *)
Theorem ThemeOptions_structure :
  ThemeOptions SchemeOptions_members = spec_ThemeOptions SchemeOptions_members
  /\ (forall k d,
        (k, d) ∈ members_of (Omit (SchemeOptions SchemeOptions_members)
                               (TLitString "isDark"))
        <-> (k, d) ∈ SchemeOptions_members /\ k ≠ "isDark")
  /\ index_of (Omit (SchemeOptions SchemeOptions_members) (TLitString "isDark"))
     = None
  /\ forall v,
       has_type (ThemeOptions SchemeOptions_members) v
       = has_type (spec_ThemeOptions SchemeOptions_members) v.
Proof.
  assert (Heq : ThemeOptions SchemeOptions_members
                = spec_ThemeOptions SchemeOptions_members).
  { unfold ThemeOptions, spec_ThemeOptions. by rewrite Omit_isDark. }
  split; [exact Heq |]. split; [| split].
  - intros k d. rewrite Omit_isDark. simpl.
    rewrite list_elem_of_filter. simpl. tauto.
  - by rewrite Omit_isDark.
  - intros v. by rewrite Heq.
Qed.

End ThemeClaims.

Section ThemeShape.

Context {E : Externals}.

Lemma has_type_object_cons k opt t (members : list member) index fields :
  has_type (TObject ((k, (opt, t)) :: members) index) (VObject fields)
  = member_ok opt (has_type t) (fields !! k)
    && has_type (TObject members index) (VObject fields).
Proof. simpl. by rewrite andb_assoc. Qed.

(** An object type whose members are all required and of one type. *)
Lemma has_type_uniform_object (names : list string) (t : ty) (v : value) :
  has_type (TObject ((fun k => (k, (required, t))) <$> names) None) v = true <->
  exists fields, v = VObject fields
    /\ forall k, k ∈ names -> exists x, fields !! k = Some x /\ has_type t x = true.
Proof.
  rewrite has_type_object. split.
  - intros (fields & -> & Hm & _). eexists; split; [done |]. intros k Hk.
    apply member_ok_required, Hm, list_elem_of_fmap. by exists k.
  - intros (fields & -> & H). eexists; split; [done |]. split; [| done].
    intros k opt t' Hin. apply list_elem_of_fmap in Hin as (k' & [= -> -> ->] & Hin).
    by apply member_ok_required, H.
Qed.

(** C9, as the code has it.  [Theme] declares exactly six members, all
    required and with no index signature: the numbers [source] and
    [contrastLevel], the [variant], [schemes] with exactly a [light] and a
    [dark] dynamic scheme, [palettes] with exactly the six named tonal
    palettes, and the list [customColors]; a value is a [Theme] exactly
    when it is an object holding all of them, whatever else it holds. *)
Theorem Theme_structure :
  member_names Theme
  = ["source"; "contrastLevel"; "variant"; "schemes"; "palettes"; "customColors"]
  /\ Forall (fun p : member => p.2.1 = required) (members_of Theme)
  /\ index_of Theme = None
  /\ member_decl Theme "source" = Some (required, TNumber)
  /\ member_decl Theme "contrastLevel" = Some (required, TNumber)
  /\ member_decl Theme "variant" = Some (required, TExternal "Variant")
  /\ member_decl Theme "schemes"
     = Some (required,
             TObject ((fun k => (k, (required, TExternal "DynamicScheme")))
                        <$> ["light"; "dark"]) None)
  /\ member_decl Theme "palettes"
     = Some (required,
             TObject ((fun k => (k, (required, TExternal "TonalPalette")))
                        <$> ["primary"; "secondary"; "tertiary"; "neutral";
                             "neutralVariant"; "error"]) None)
  /\ member_decl Theme "customColors"
     = Some (required, TArray (TExternal "CustomColorGroup"))
  /\ forall v,
       has_type Theme v = true <->
       exists fields, v = VObject fields
         /\ (exists n, fields !! "source" = Some (VNumber n))
         /\ (exists n, fields !! "contrastLevel" = Some (VNumber n))
         /\ (exists x, fields !! "variant" = Some x /\ external "Variant" x = true)
         /\ (exists s, fields !! "schemes" = Some (VObject s)
               /\ forall k, k ∈ ["light"; "dark"] ->
                    exists x, s !! k = Some x /\ external "DynamicScheme" x = true)
         /\ (exists p, fields !! "palettes" = Some (VObject p)
               /\ forall k, k ∈ ["primary"; "secondary"; "tertiary"; "neutral";
                                 "neutralVariant"; "error"] ->
                    exists x, p !! k = Some x /\ external "TonalPalette" x = true)
         /\ (exists xs, fields !! "customColors" = Some (VArray xs)
               /\ Forall (fun x => external "CustomColorGroup" x = true) xs).
Proof.
  split; [done |]. split; [by repeat constructor |]. split; [done |].
  do 6 (split; [by vm_compute |]).
  intros v. destruct v as [| | | | | |fields|];
    try (split; [done | intros (? & ? & _); done]).
  change Theme with
    (TObject [("source", (required, TNumber));
              ("contrastLevel", (required, TNumber));
              ("variant", (required, TExternal "Variant"));
              ("schemes", (required,
                 TObject ((fun k => (k, (required, TExternal "DynamicScheme")))
                            <$> ["light"; "dark"]) None));
              ("palettes", (required,
                 TObject ((fun k => (k, (required, TExternal "TonalPalette")))
                            <$> ["primary"; "secondary"; "tertiary"; "neutral";
                                 "neutralVariant"; "error"]) None));
              ("customColors", (required, TArray (TExternal "CustomColorGroup")))]
       None).
  rewrite !has_type_object_cons, !andb_true_iff, !member_ok_required. split.
  - intros ((x1 & H1 & T1) & (x2 & H2 & T2) & (x3 & H3 & T3) & (x4 & H4 & T4)
            & (x5 & H5 & T5) & (x6 & H6 & T6) & _).
    apply has_type_number in T1 as [n1 ->], T2 as [n2 ->].
    apply has_type_uniform_object in T4 as (s & -> & Hs), T5 as (p & -> & Hp).
    apply has_type_array in T6 as (xs & -> & Hxs).
    exists fields. repeat split; eauto.
  - intros (fs & [= <-] & (n1 & H1) & (n2 & H2) & (x3 & H3 & T3)
            & (s & H4 & Hs) & (p & H5 & Hp) & (xs & H6 & Hxs)).
    repeat split.
    + eexists; split; [done | done].
    + eexists; split; [done | done].
    + eauto.
    + eexists; split; [done |]. apply has_type_uniform_object. eauto.
    + eexists; split; [done |]. apply has_type_uniform_object. eauto.
    + eexists; split; [done |]. apply has_type_array. eauto.
Qed.

End ThemeShape.

(** * The declarations on sample inputs *)

Section SampleFacts.

#[local] Existing Instance Sample.objects_only.
#[local] Existing Instance Sample.keys.

(** The example scenario of the specification: the [Light] scheme over
    the roles [primary] and [secondary]. *)
Example LightColorScheme_sample :
  LightColorScheme
  = TObject [("primaryLight", (required, TNumber));
             ("secondaryLight", (required, TNumber))] None.
Proof. reflexivity. Qed.

Example base_scheme_conforms :
  has_type (ColorSchemeReturnType (TLitBool false)) Sample.base_scheme = true.
Proof. by vm_compute. Qed.

(** A scheme with brightness variants need not have the base role
    [secondary]. *)
Example full_scheme_conforms :
  has_type (ColorSchemeReturnType (TLitBool true)) Sample.full_scheme = true
  /\ entry Sample.full_scheme "secondary" = None.
Proof. by vm_compute. Qed.

(** [Omit] on a sample interface. *)
Example ThemeOptions_sample :
  ThemeOptions Sample.scheme_options
  = TInter (TObject [("contrastLevel", (optional, TNumber))] None)
           (TObject [("staticColors", (optional, TArray StaticColor))] None).
Proof. by vm_compute. Qed.

End SampleFacts.

(** C2, the claim as stated fails: the empty object is a [ColorScheme] and
    has no entry at the role [primary]. *)
Lemma ColorScheme_empty_object_conforms :
  has_type (E := Sample.objects_only) (ColorScheme (K := Sample.keys))
    Sample.empty_scheme = true
  /\ "primary" ∈ (Sample.keys : list string)
  /\ entry Sample.empty_scheme "primary" = None.
Proof.
  split; [by vm_compute |]. split; [apply list_elem_of_here | done].
Qed.

(** C3, the code at a string that is no role name: ["brand"] is not a
    [ColorKey], while the role name ["primary"] is. *)
Lemma ColorKey_rejects_other_strings :
  has_type (E := Sample.objects_only) (ColorKey (K := Sample.keys))
    (VString "brand") = false
  /\ has_type (E := Sample.objects_only) (ColorKey (K := Sample.keys))
       (VString "primary") = true.
Proof. by vm_compute. Qed.

(** C5 on a sample: an object with the required member [brand]. *)
Lemma CustomColorScheme_keeps_T_witness :
  has_type (E := Sample.objects_only) (CustomColorScheme Sample.brand)
    (VObject {[ "brand" := VNumber 4278190335 ]}) = true
  /\ has_type (E := Sample.objects_only) Sample.brand
       (VObject {[ "brand" := VNumber 4278190335 ]}) = true.
Proof.
  assert (H : has_type (E := Sample.objects_only) (CustomColorScheme Sample.brand)
                (VObject {[ "brand" := VNumber 4278190335 ]}) = true)
    by (vm_compute; reflexivity).
  split; [exact H |].
  exact (proj1 (CustomColorScheme_keeps_T (E := Sample.objects_only)
                  Sample.brand _ H)).
Defined.

(** C9, the claim as stated fails: a [Theme] may consist of more than the
    declared parts.  This object holds all six members and the further
    entry [note], and it is a [Theme]. *)
Lemma Theme_with_further_entry :
  has_type (E := Fixtures.library) Theme Fixtures.theme_with_note = true
  /\ entry Fixtures.theme_with_note "note" = Some (VString "draft")
  /\ "note" ∉ member_names Theme.
Proof.
  split; [by vm_compute |]. split; [by vm_compute |].
  intros Hin. apply list_elem_of_In in Hin. simpl in Hin.
  repeat (destruct Hin as [Hin | Hin]; [discriminate Hin |]). done.
Qed.

(** C7, the claim as stated fails: options whose [paletteTones] is the
    empty list conform. *)
Lemma paletteTones_may_be_empty :
  has_type (E := Sample.objects_only)
    (ColorSchemeOptions (K := Sample.keys) (TLitBool false)) Sample.no_tones = true
  /\ entry Sample.no_tones "paletteTones" = Some (VArray []).
Proof. by vm_compute. Qed.

(** C7 on a sample: the empty tone list of [no_tones]. *)
Lemma paletteTones_false_or_numbers_witness :
  VArray [] = VBool false \/ exists ns : list Z, VArray [] = VArray (VNumber <$> ns).
Proof.
  apply (proj1 (paletteTones_false_or_numbers (E := Sample.objects_only)
                  (K := Sample.keys) (TLitBool false))
           Sample.no_tones (VArray [])).
  - vm_compute. reflexivity.
  - vm_compute. reflexivity.
  - discriminate.
Defined.

(** C10 on a sample: the entry of a one-colour custom scheme is a number. *)
Lemma CustomColorScheme_default_numbers_only_witness :
  exists n, VNumber 4278190335 = VNumber n.
Proof.
  apply (proj1 (CustomColorScheme_default_numbers_only (E := Sample.objects_only))
           {[ "accent" := VNumber 4278190335 ]} "accent").
  - vm_compute. reflexivity.
  - vm_compute. reflexivity.
Defined.

(** * Further properties of the declarations *)

(** ** Entries removed, added and merged *)

Lemma append_nil_l (s : string) : "" +:+ s = s.
Proof. reflexivity. Qed.

Lemma append_cons (c : Ascii.ascii) (k s : string) :
  String c k +:+ s = String c (k +:+ s).
Proof. reflexivity. Qed.

(** No [Light] key is a [Dark] key. *)
Lemma append_Light_Dark (k k' : string) : k +:+ "Light" ≠ k' +:+ "Dark".
Proof.
  revert k'. induction k as [|c k IH]; intros k' H.
  - rewrite append_nil_l in H. destruct k' as [|c1 [|c2 k']].
    + discriminate H.
    + rewrite append_cons, append_nil_l in H. discriminate H.
    + apply (f_equal String.length) in H.
      rewrite !append_cons in H. simpl in H. rewrite append_length in H.
      simpl in H. lia.
  - destruct k' as [|c' k'].
    + apply (f_equal String.length) in H.
      rewrite append_cons, append_nil_l in H. simpl in H.
      rewrite append_length in H. simpl in H. lia.
    + rewrite !append_cons in H. injection H as _ H. by apply (IH k').
Qed.

Section EntryFacts.

Context {E : Externals}.

(** An object without the entry of a required member does not conform. *)
Lemma has_type_delete_required (T : ty) (fields : gmap string value) k t :
  (k, t) ∈ required_members T ->
  has_type T (VObject (delete k fields)) = false.
Proof.
  intros Hin. apply not_true_is_false. intros H.
  destruct (has_type_required_members T _ k t H Hin) as (x & Hx & _).
  by rewrite lookup_delete_eq in Hx.
Qed.

(** Removing an entry that no required member names keeps an object in
    an object type. *)
Lemma has_type_delete_optional (members : list member) index
    (fields : gmap string value) k :
  (forall opt t, (k, (opt, t)) ∈ members -> opt = optional) ->
  has_type (TObject members index) (VObject fields) = true ->
  has_type (TObject members index) (VObject (delete k fields)) = true.
Proof.
  intros Hopt. rewrite !has_type_object.
  intros (fs & [= <-] & Hm & Hi). eexists; split; [done |]. split.
  - intros k' opt t Hin. destruct (decide (k = k')) as [<- | Hne].
    + rewrite lookup_delete_eq. by rewrite (Hopt _ _ Hin).
    + rewrite lookup_delete_ne by done. by apply Hm.
  - intros t Ht k' x Hk'. apply lookup_delete_Some in Hk' as [_ Hk'].
    by eapply Hi.
Qed.

End EntryFacts.

Section MoreColorSchemeFacts.

Context {E : Externals} {K : SchemeKeys}.

(** Every part of a [ColorScheme] is a [ColorScheme]. *)
Lemma has_type_ColorScheme_sub (fields fields' : gmap string value) :
  (forall k x, fields' !! k = Some x -> fields !! k = Some x) ->
  has_type ColorScheme (VObject fields) = true ->
  has_type ColorScheme (VObject fields') = true.
Proof.
  intros Hsub. rewrite !has_type_ColorScheme.
  intros (fs & [= <-] & Hnum). eexists; split; [done |]. eauto.
Qed.

Lemma required_members_Suffixed (Suffix : string) :
  required_members (SuffixedColorScheme Suffix)
  = (fun k => (k +:+ Suffix, TNumber)) <$> remove_dups COLOR_SCHEME_KEYS.
Proof.
  rewrite SuffixedColorScheme_unfold. simpl.
  induction (remove_dups COLOR_SCHEME_KEYS) as [|k l IH]; [done |].
  csimpl. f_equal. exact IH.
Qed.

Lemma required_members_ReturnType_true :
  required_members (ColorSchemeReturnType (TLitBool true))
  = (((fun k => (k +:+ "Light", TNumber)) <$> remove_dups COLOR_SCHEME_KEYS)
     ++ ((fun k => (k +:+ "Dark", TNumber)) <$> remove_dups COLOR_SCHEME_KEYS))%list.
Proof.
  rewrite ColorSchemeReturnType_true.
  change (required_members (TInter (TInter ColorScheme LightColorScheme)
                                   DarkColorScheme))
    with ((required_members ColorScheme
           ++ required_members (SuffixedColorScheme "Light"))
          ++ required_members (SuffixedColorScheme "Dark"))%list.
  rewrite !required_members_Suffixed, ColorScheme_unfold. done.
Qed.

(** X1.  The return types are nested: whatever the flag, a value of
    [ColorSchemeReturnType<V>] is a [ColorSchemeReturnType<false>]; with
    the flag left at [boolean] the return type has the values of
    [ColorScheme] and no others; and the nesting is strict once there is a
    role, since the empty scheme lacks the variant keys. *)
Theorem ColorSchemeReturnType_nested :
  (forall V v, has_type (ColorSchemeReturnType V) v = true ->
               has_type (ColorSchemeReturnType (TLitBool false)) v = true)
  /\ (forall v, has_type (ColorSchemeReturnType TBoolean) v = true <->
                has_type ColorScheme v = true)
  /\ (forall k, k ∈ COLOR_SCHEME_KEYS ->
        has_type (ColorSchemeReturnType (TLitBool false)) (VObject ∅) = true
        /\ has_type (ColorSchemeReturnType (TLitBool true)) (VObject ∅) = false).
Proof.
  split; [| split].
  - intros V v. rewrite ColorSchemeReturnType_false.
    apply ColorSchemeReturnType_ColorScheme.
  - intros v. split; [apply ColorSchemeReturnType_ColorScheme |].
    rewrite ColorSchemeReturnType_boolean, has_type_union. intros ->.
    apply orb_true_r.
  - intros k Hk. split.
    + rewrite ColorSchemeReturnType_false. apply has_type_ColorScheme.
      eexists; split; [done |]. intros k' x Hx. by rewrite lookup_empty in Hx.
    + apply not_true_is_false.
      rewrite ColorSchemeReturnType_true, !has_type_inter, !andb_true_iff.
      intros [[_ Hl] _]. apply has_type_SuffixedColorScheme in Hl
        as (fields & [= <-] & Hl).
      destruct (Hl k Hk) as [n Hn]. by rewrite lookup_empty in Hn.
Qed.

(** X2.  [ColorSchemeReturnType<true>] requires the [Light] and the [Dark]
    key of every role and nothing else: no name is required twice (a
    [Light] key is never a [Dark] key), so [n] roles give [2 n] required
    keys, all numeric. *)
Theorem ColorSchemeReturnType_true_required :
  required_members (ColorSchemeReturnType (TLitBool true))
  = (((fun k => (k +:+ "Light", TNumber)) <$> remove_dups COLOR_SCHEME_KEYS)
     ++ ((fun k => (k +:+ "Dark", TNumber)) <$> remove_dups COLOR_SCHEME_KEYS))%list
  /\ NoDup (required_members (ColorSchemeReturnType (TLitBool true))).*1
  /\ length (required_members (ColorSchemeReturnType (TLitBool true)))
     = 2 * length (remove_dups COLOR_SCHEME_KEYS).
Proof.
  pose proof required_members_ReturnType_true as Heq.
  split; [exact Heq |]. rewrite Heq. split.
  - rewrite fmap_app, <- !list_fmap_compose. apply NoDup_app. split; [| split].
    + apply NoDup_fmap_2; [| apply NoDup_remove_dups].
      intros k k' H. by apply (template_inj "Light").
    + intros name Hl Hd.
      apply list_elem_of_fmap in Hl as (k & -> & _).
      apply list_elem_of_fmap in Hd as (k' & Hd & _).
      by apply (append_Light_Dark k k').
    + apply NoDup_fmap_2; [| apply NoDup_remove_dups].
      intros k k' H. by apply (template_inj "Dark").
  - rewrite length_app, !length_fmap. lia.
Qed.

(** X3.  In a scheme with brightness variants the base roles are
    optional: removing an entry whose key is no [Light] or [Dark] key of a
    role leaves a [ColorSchemeReturnType<true>], while a scheme without
    one of those keys is none. *)
Theorem ColorSchemeReturnType_true_delete (fields : gmap string value) (k : string) :
  has_type (ColorSchemeReturnType (TLitBool true)) (VObject fields) = true ->
  (forall r, r ∈ COLOR_SCHEME_KEYS -> k ≠ r +:+ "Light" /\ k ≠ r +:+ "Dark") ->
  has_type (ColorSchemeReturnType (TLitBool true)) (VObject (delete k fields)) = true
  /\ forall r, r ∈ COLOR_SCHEME_KEYS ->
       has_type (ColorSchemeReturnType (TLitBool true))
         (VObject (delete (r +:+ "Light") fields)) = false
       /\ has_type (ColorSchemeReturnType (TLitBool true))
            (VObject (delete (r +:+ "Dark") fields)) = false.
Proof.
  intros H Hk. split.
  - rewrite ColorSchemeReturnType_true, !has_type_inter, !andb_true_iff in *.
    destruct H as [[Hc Hl] Hd].
    assert (Hno : forall Suffix,
      (forall r, r ∈ COLOR_SCHEME_KEYS -> k ≠ r +:+ Suffix) ->
      forall opt t,
        (k, (opt, t)) ∈ (fun k => (k, (required, TNumber)))
                          <$> (template Suffix <$> remove_dups COLOR_SCHEME_KEYS) ->
        opt = optional).
    { intros Suffix Hs opt t Hin. apply list_elem_of_fmap in Hin as (n' & [= -> -> ->] & Hin).
      apply list_elem_of_fmap in Hin as (r & Hr & Hin).
      rewrite elem_of_remove_dups in Hin. by destruct (Hs r Hin). }
    split; [split |].
    + apply (has_type_ColorScheme_sub fields); [| done].
      intros k' x Hx. by apply lookup_delete_Some in Hx as [_ Hx].
    + unfold LightColorScheme in *. revert Hl.
      rewrite SuffixedColorScheme_unfold. apply has_type_delete_optional.
      apply Hno.
      intros r Hr. by destruct (Hk r Hr).
    + unfold DarkColorScheme in *. revert Hd.
      rewrite SuffixedColorScheme_unfold. apply has_type_delete_optional.
      apply Hno.
      intros r Hr. by destruct (Hk r Hr).
  - intros r Hr. split.
    + apply (has_type_delete_required _ _ _ TNumber).
      rewrite required_members_ReturnType_true.
      apply elem_of_app. left. apply list_elem_of_fmap. exists r.
      split; [done | by rewrite elem_of_remove_dups].
    + apply (has_type_delete_required _ _ _ TNumber).
      rewrite required_members_ReturnType_true.
      apply elem_of_app. right. apply list_elem_of_fmap. exists r.
      split; [done | by rewrite elem_of_remove_dups].
Qed.

End MoreColorSchemeFacts.

Section SchemeAlgebra.

Context {E : Externals} {K : SchemeKeys}.

(** X4.  Schemes can be cut down, extended and merged: an object all of
    whose entries come from two [ColorScheme]s is a [ColorScheme], so are
    a scheme without one of its entries, the merge of two schemes and a
    scheme with one more numeric entry; an entry that is no number is
    never accepted. *)
Theorem ColorScheme_closed (a b : gmap string value) :
  has_type ColorScheme (VObject a) = true ->
  has_type ColorScheme (VObject b) = true ->
  (forall c : gmap string value,
     (forall k x, c !! k = Some x -> a !! k = Some x \/ b !! k = Some x) ->
     has_type ColorScheme (VObject c) = true)
  /\ (forall k, has_type ColorScheme (VObject (delete k a)) = true)
  /\ has_type ColorScheme (VObject (b ∪ a)) = true
  /\ (forall k n, has_type ColorScheme (VObject (<[k := VNumber n]> a)) = true)
  /\ (forall k x, (forall n, x ≠ VNumber n) ->
        has_type ColorScheme (VObject (<[k := x]> a)) = false).
Proof.
  intros Ha Hb.
  apply has_type_ColorScheme in Ha as (fa & [= <-] & Ha).
  apply has_type_ColorScheme in Hb as (fb & [= <-] & Hb).
  assert (Hfrom : forall c : gmap string value,
    (forall k x, c !! k = Some x -> a !! k = Some x \/ b !! k = Some x) ->
    has_type ColorScheme (VObject c) = true).
  { intros c Hc. apply has_type_ColorScheme. eexists; split; [done |].
    intros k x Hx. destruct (Hc k x Hx); eauto. }
  split; [exact Hfrom |]. split; [| split; [| split]].
  - intros k. apply Hfrom. intros k' x Hx.
    apply lookup_delete_Some in Hx as [_ Hx]. by left.
  - apply Hfrom. intros k x Hx.
    apply lookup_union_Some_raw in Hx as [Hx | [_ Hx]]; eauto.
  - intros k n. apply has_type_ColorScheme. eexists; split; [done |].
    intros k' x Hx. destruct (decide (k = k')) as [<- | Hne].
    + rewrite lookup_insert_eq in Hx. injection Hx as <-. eauto.
    + rewrite lookup_insert_ne in Hx by done. eauto.
  - intros k x Hx. apply not_true_is_false. intros H.
    apply has_type_ColorScheme in H as (fs & [= <-] & H).
    destruct (H k x (lookup_insert_eq _ _ _)) as [n ->]. by apply (Hx n).
Qed.

(** X5.  With the default parameter a [CustomColorScheme] is a
    [ColorScheme]: the two types have the same values. *)
Theorem CustomColorScheme_default_is_ColorScheme (v : value) :
  has_type (CustomColorScheme CustomColorScheme_default_T) v
  = has_type ColorScheme v.
Proof.
  apply eq_iff_eq_true. unfold CustomColorScheme.
  rewrite has_type_inter, andb_true_iff, ColorScheme_unfold.
  split; [tauto |]. intros H. split; [| done].
  apply has_type_object in H as (fields & -> & _ & Hi).
  apply has_type_object. eexists; split; [done |]. split.
  - intros k opt t Hin. by apply elem_of_nil in Hin.
  - intros t [= <-] k x Hk. rewrite has_type_union.
    rewrite (Hi TNumber eq_refl k x Hk). apply orb_true_r.
Qed.

End SchemeAlgebra.

Section CustomColorSchemeCollision.

Context {E : Externals}.

(** X6.  A base shape with a required member that no number fits leaves
    [CustomColorScheme<T>] without values: the numeric index signature
    applies to the members of [T] as well. *)
Theorem CustomColorScheme_collision (T : ty) (k : string) (t : ty) (v : value) :
  (k, t) ∈ required_members T ->
  (forall n, has_type t (VNumber n) = false) ->
  has_type (CustomColorScheme T) v = false.
Proof.
  intros Hin Hnot. apply not_true_is_false. unfold CustomColorScheme.
  rewrite has_type_inter, andb_true_iff. intros [HT Hn].
  destruct (has_type_object_is_object _ _ _ Hn) as [fields ->].
  destruct (has_type_required_members T fields k t HT Hin) as (x & Hx & Ht).
  rewrite has_type_index_number in Hn. destruct (Hn k x Hx) as [n ->].
  by rewrite Hnot in Ht.
Qed.

(** X7.  In a [StaticColor] only [blend] may be left out, and [value] may
    be a string or a number: without [blend] the object still conforms,
    without [name] or [value] it never does, and [value] can be replaced
    by any string or number but not by a boolean. *)
Theorem StaticColor_members (fields : gmap string value) :
  has_type StaticColor (VObject fields) = true ->
  has_type StaticColor (VObject (delete "blend" fields)) = true
  /\ has_type StaticColor (VObject (delete "name" fields)) = false
  /\ has_type StaticColor (VObject (delete "value" fields)) = false
  /\ (forall s, has_type StaticColor (VObject (<["value" := VString s]> fields)) = true)
  /\ (forall n, has_type StaticColor (VObject (<["value" := VNumber n]> fields)) = true)
  /\ (forall b, has_type StaticColor (VObject (<["value" := VBool b]> fields)) = false).
Proof.
  intros H.
  assert (Hval : forall x,
    has_type StaticColor (VObject (<["value" := x]> fields)) = has_type Color x).
  { intros x. revert H. unfold StaticColor.
    rewrite !has_type_object_cons, !andb_true_iff.
    rewrite lookup_insert_eq, !lookup_insert_ne by done.
    intros (-> & _ & -> & _). simpl. by rewrite orb_false_r, !andb_true_r. }
  split; [| split; [| split; [| split; [| split]]]].
  - revert H. apply has_type_delete_optional. intros opt t Hin.
    apply list_elem_of_In in Hin. simpl in Hin.
    destruct Hin as [Hin | [Hin | [Hin | []]]]; by inversion Hin.
  - apply (has_type_delete_required _ _ _ TString). apply list_elem_of_here.
  - apply (has_type_delete_required _ _ _ Color).
    apply list_elem_of_further, list_elem_of_here.
  - intros s. by rewrite Hval.
  - intros n. by rewrite Hval.
  - intros b. by rewrite Hval.
Qed.

End CustomColorSchemeCollision.

Section OptionsFacts.

Context {E : Externals} {K : SchemeKeys}.

(** X9.  The entry [brightnessVariants] carries the flag of the options
    type: in a value of [ColorSchemeOptions<b>], for [b] either literal, it
    is [b] whenever it is present and not [undefined].  So the default
    options ([b = false]) cannot ask for brightness variants. *)
Theorem brightnessVariants_is_flag (b : bool) (o x : value) :
  has_type (ColorSchemeOptions (TLitBool b)) o = true ->
  entry o "brightnessVariants" = Some x ->
  x <> VUndefined ->
  x = VBool b.
Proof.
  intros Ho Hx Hdef.
  apply has_type_object in Ho as (fields & -> & Hm & _). simpl in Hx.
  assert (Hin : ("brightnessVariants", (optional, TLitBool b))
                ∈ members_of (ColorSchemeOptions (TLitBool b))).
  { simpl. apply list_elem_of_further, list_elem_of_here. }
  apply Hm, member_ok_optional in Hin as [Hin | (y & Hy & [Ht | ->])];
    [congruence | | congruence].
  rewrite Hx in Hy. injection Hy as <-.
  destruct x; try done. simpl in Ht. by apply bool_decide_eq_true in Ht as ->.
Qed.

End OptionsFacts.

Lemma filter_all {A} (P : A -> Prop) `{!forall x, Decision (P x)} (l : list A) :
  (forall x, x ∈ l -> P x) -> filter P l = l.
Proof.
  induction l as [|x l IH]; intros Hall; [done |].
  rewrite filter_cons_True by apply Hall, list_elem_of_here.
  rewrite IH; [done |]. intros y Hy. by apply Hall, list_elem_of_further.
Qed.

Section MoreThemeFacts.

Context {E : Externals}.

Lemma required_members_Theme :
  required_members Theme
  = [("source", TNumber); ("contrastLevel", TNumber);
     ("variant", TExternal "Variant");
     ("schemes", TObject [("light", (required, TExternal "DynamicScheme"));
                          ("dark", (required, TExternal "DynamicScheme"))] None);
     ("palettes", TObject [("primary", (required, TExternal "TonalPalette"));
                           ("secondary", (required, TExternal "TonalPalette"));
                           ("tertiary", (required, TExternal "TonalPalette"));
                           ("neutral", (required, TExternal "TonalPalette"));
                           ("neutralVariant", (required, TExternal "TonalPalette"));
                           ("error", (required, TExternal "TonalPalette"))] None);
     ("customColors", TArray (TExternal "CustomColorGroup"))].
Proof. reflexivity. Qed.

(** X12.  Over scheme options that have no member [isDark] the omission
    removes nothing: [ThemeOptions] is then the scheme options as they
    are, together with the optional [staticColors]. *)
Theorem ThemeOptions_without_isDark (SchemeOptions_members : list member) :
  "isDark" ∉ SchemeOptions_members.*1 ->
  ThemeOptions SchemeOptions_members
  = TInter (SchemeOptions SchemeOptions_members)
           (TObject [("staticColors", (optional, TArray StaticColor))] None).
Proof.
  intros Hno. unfold ThemeOptions. rewrite Omit_isDark. f_equal.
  unfold SchemeOptions. f_equal. apply filter_all.
  intros [k d] Hin Heq. simpl in Heq. subst k.
  apply Hno, list_elem_of_fmap. by exists ("isDark", d).
Qed.

(** X13.  A [Theme] needs all of its members: an object without one of
    the six entries is no [Theme], nor is one whose [schemes] lacks
    [light] or [dark] or whose [palettes] lacks one of the six palettes.
    Other entries do no harm, and the list [customColors] may be empty. *)
Theorem Theme_members_required :
  Forall (fun k => forall fields, has_type Theme (VObject (delete k fields)) = false)
    (member_names Theme)
  /\ (forall fields s k,
        fields !! "schemes" = Some (VObject s) ->
        k ∈ ["light"; "dark"] -> s !! k = None ->
        has_type Theme (VObject fields) = false)
  /\ (forall fields p k,
        fields !! "palettes" = Some (VObject p) ->
        k ∈ ["primary"; "secondary"; "tertiary"; "neutral"; "neutralVariant"; "error"] ->
        p !! k = None ->
        has_type Theme (VObject fields) = false)
  /\ (forall fields k x,
        has_type Theme (VObject fields) = true ->
        k ∉ member_names Theme ->
        has_type Theme (VObject (<[k := x]> fields)) = true)
  /\ (forall fields,
        has_type Theme (VObject fields) = true ->
        has_type Theme (VObject (<["customColors" := VArray []]> fields)) = true).
Proof.
  assert (Hnested : forall fields name (t : ty) (o : gmap string value) k t',
    (name, t) ∈ required_members Theme ->
    (k, t') ∈ required_members t ->
    fields !! name = Some (VObject o) -> o !! k = None ->
    has_type Theme (VObject fields) = false).
  { intros fields name t o k t' Hin Hin' Hf Ho. apply not_true_is_false. intros H.
    destruct (has_type_required_members Theme fields name t H Hin) as (x & Hx & Ht).
    rewrite Hf in Hx. injection Hx as <-.
    destruct (has_type_required_members t o k t' Ht Hin') as (y & Hy & _).
    congruence. }
  split; [| split; [| split; [| split]]].
  - apply Forall_forall. intros k Hin fields.
    apply list_elem_of_In in Hin. simpl in Hin.
    destruct Hin as [<- | [<- | [<- | [<- | [<- | [<- | []]]]]]];
      eapply has_type_delete_required; rewrite required_members_Theme;
      repeat (first [apply list_elem_of_here | apply list_elem_of_further]).
  - intros fields s k Hf Hk Hs.
    apply list_elem_of_In in Hk. simpl in Hk.
    destruct Hk as [<- | [<- | []]];
      (eapply (Hnested fields "schemes" _ s); [| | exact Hf | exact Hs]);
      [rewrite required_members_Theme | simpl | rewrite required_members_Theme | simpl];
      repeat (first [apply list_elem_of_here | apply list_elem_of_further]).
  - intros fields p k Hf Hk Hp.
    apply list_elem_of_In in Hk. simpl in Hk.
    destruct Hk as [<- | [<- | [<- | [<- | [<- | [<- | []]]]]]];
      (eapply (Hnested fields "palettes" _ p); [| | exact Hf | exact Hp]);
      try (rewrite required_members_Theme;
           do 4 apply list_elem_of_further; apply list_elem_of_here);
      simpl; repeat (first [apply list_elem_of_here | apply list_elem_of_further]).
  - intros fields k x H Hk. apply has_type_admits_entry; [done |].
    simpl. rewrite andb_true_r. by apply bool_decide_eq_true.
  - intros fields. unfold Theme.
    rewrite !has_type_object_cons, !andb_true_iff.
    rewrite lookup_insert_eq, !lookup_insert_ne by done.
    intros (H1 & H2 & H3 & H4 & H5 & _). by repeat split.
Qed.

End MoreThemeFacts.

Section RoleOrder.

Context {E : Externals}.

Lemma has_type_Suffixed_subset (K1 K2 : SchemeKeys) (Suffix : string) (v : value) :
  (forall k, k ∈ (K2 : list string) -> k ∈ (K1 : list string)) ->
  has_type (SuffixedColorScheme (K := K1) Suffix) v = true ->
  has_type (SuffixedColorScheme (K := K2) Suffix) v = true.
Proof.
  intros Hsub. rewrite !has_type_SuffixedColorScheme.
  intros (fields & -> & H). eexists; split; [done |]. intros k Hk.
  by apply H, Hsub.
Qed.

(** X14.  Only the set of role names matters: two key tuples that list
    the same names, in any order and any number of times, give the same
    values to [ColorSchemeReturnType<V>] for either flag. *)
Theorem role_order_irrelevant (K1 K2 : SchemeKeys) (V : bool) (v : value) :
  (forall k, k ∈ (K1 : list string) <-> k ∈ (K2 : list string)) ->
  has_type (ColorSchemeReturnType (K := K1) (TLitBool V)) v
  = has_type (ColorSchemeReturnType (K := K2) (TLitBool V)) v.
Proof.
  intros Hsame. destruct V.
  - rewrite !ColorSchemeReturnType_true, !has_type_inter, !ColorScheme_unfold.
    assert (Hs : forall Suffix,
      has_type (SuffixedColorScheme (K := K1) Suffix) v
      = has_type (SuffixedColorScheme (K := K2) Suffix) v).
    { intros Suffix. apply eq_iff_eq_true.
      split; apply has_type_Suffixed_subset; intros k; apply Hsame. }
    unfold LightColorScheme, DarkColorScheme. by rewrite !Hs.
  - by rewrite !ColorSchemeReturnType_false, !ColorScheme_unfold.
Qed.

End RoleOrder.

(** ** The further properties on sample inputs *)

(** X3 on a sample: the variant scheme without its base role [primary]. *)
Lemma ColorSchemeReturnType_true_delete_witness :
  has_type (E := Sample.objects_only)
    (ColorSchemeReturnType (K := Sample.keys) (TLitBool true))
    (VObject Fixtures.variant_fields) = true
  /\ has_type (E := Sample.objects_only)
       (ColorSchemeReturnType (K := Sample.keys) (TLitBool true))
       (VObject (delete "primary" Fixtures.variant_fields)) = true.
Proof.
  assert (H : has_type (E := Sample.objects_only)
                (ColorSchemeReturnType (K := Sample.keys) (TLitBool true))
                (VObject Fixtures.variant_fields) = true)
    by (vm_compute; reflexivity).
  split; [exact H |].
  refine (proj1 (ColorSchemeReturnType_true_delete (E := Sample.objects_only)
                   (K := Sample.keys) Fixtures.variant_fields "primary" H _)).
  intros r Hr. apply list_elem_of_In in Hr. simpl in Hr.
  destruct Hr as [<- | [<- | []]]; split; intros Heq; vm_compute in Heq;
    discriminate Heq.
Defined.

(** X4 on a sample: the base scheme merged with a scheme that repaints
    [primary] and adds [brand]. *)
Lemma ColorScheme_closed_witness :
  has_type (E := Sample.objects_only) (ColorScheme (K := Sample.keys))
    (VObject (Fixtures.brand_fields ∪ Fixtures.base_fields)) = true.
Proof.
  refine (proj1 (proj2 (proj2 (ColorScheme_closed (E := Sample.objects_only)
            (K := Sample.keys) Fixtures.base_fields Fixtures.brand_fields _ _)))).
  - vm_compute. reflexivity.
  - vm_compute. reflexivity.
Defined.

(** X6 on a sample: [StaticColor] requires the string [name], so no
    object is a [CustomColorScheme<StaticColor>], the sample static colour
    included. *)
Lemma CustomColorScheme_collision_witness :
  has_type (E := Sample.objects_only) StaticColor Fixtures.static_color = true
  /\ has_type (E := Sample.objects_only) (CustomColorScheme StaticColor)
       Fixtures.static_color = false.
Proof.
  split; [vm_compute; reflexivity |].
  apply (CustomColorScheme_collision (E := Sample.objects_only)
           StaticColor "name" TString Fixtures.static_color).
  - apply list_elem_of_here.
  - intros n. reflexivity.
Defined.

(** X7 on a sample: the sample static colour without [blend]. *)
Lemma StaticColor_members_witness :
  has_type (E := Sample.objects_only) StaticColor
    (VObject (delete "blend" Fixtures.static_color_fields)) = true.
Proof.
  refine (proj1 (StaticColor_members (E := Sample.objects_only)
                   Fixtures.static_color_fields _)).
  vm_compute. reflexivity.
Defined.

(** X9 on a sample: options of the default type with
    [brightnessVariants: false]. *)
Lemma brightnessVariants_is_flag_witness :
  has_type (E := Sample.objects_only)
    (ColorSchemeOptions (K := Sample.keys) (TLitBool false)) Fixtures.options = true
  /\ entry Fixtures.options "brightnessVariants" = Some (VBool false).
Proof.
  assert (H : has_type (E := Sample.objects_only)
                (ColorSchemeOptions (K := Sample.keys) (TLitBool false))
                Fixtures.options = true)
    by (vm_compute; reflexivity).
  split; [exact H |].
  assert (Hx : exists x, entry Fixtures.options "brightnessVariants" = Some x
                         /\ x <> VUndefined)
    by (exists (VBool false); split; [vm_compute; reflexivity | discriminate]).
  destruct Hx as (x & Hx & Hdef). rewrite Hx. f_equal.
  exact (brightnessVariants_is_flag (E := Sample.objects_only) (K := Sample.keys)
           false Fixtures.options x H Hx Hdef).
Defined.

(** X12 on a sample: over the members of [ColorSchemeOptions], whose dark
    flag is named [dark], nothing is omitted. *)
Lemma ThemeOptions_without_isDark_witness :
  ThemeOptions (members_of (ColorSchemeOptions (K := Sample.keys) (TLitBool false)))
  = TInter (ColorSchemeOptions (K := Sample.keys) (TLitBool false))
           (TObject [("staticColors", (optional, TArray StaticColor))] None).
Proof.
  apply (ThemeOptions_without_isDark
           (members_of (ColorSchemeOptions (K := Sample.keys) (TLitBool false)))).
  intros Hin. apply list_elem_of_In in Hin. simpl in Hin.
  destruct Hin as [Hin | [Hin | [Hin | [Hin | []]]]]; discriminate Hin.
Defined.

(** X14 on a sample: the roles in another order, one of them twice. *)
Lemma role_order_irrelevant_witness :
  has_type (E := Sample.objects_only)
    (ColorSchemeReturnType (K := Sample.keys) (TLitBool true)) Sample.full_scheme
  = has_type (E := Sample.objects_only)
      (ColorSchemeReturnType (K := Fixtures.keys_shuffled) (TLitBool true))
      Sample.full_scheme.
Proof.
  apply (role_order_irrelevant (E := Sample.objects_only)
           Sample.keys Fixtures.keys_shuffled true Sample.full_scheme).
  intros k. unfold Sample.keys, Fixtures.keys_shuffled.
  rewrite !elem_of_cons, !elem_of_nil. tauto.
Defined.
